(** * CarlaSyncMode: the frame synchroniser of synchronous_mode.py

    A shallow embedding of the context manager [CarlaSyncMode]
    (PythonAPI/examples/synchronous_mode.py) and proofs about its frame
    alignment, stale-item draining, error behaviour and settings
    restoration. *)

From Stdlib Require Import ZArith QArith Lia.
From stdpp Require Import ssreflect base list gmap strings relations.

Close Scope Q_scope.
Open Scope Z_scope.

(** ** Data model *)

(** Who pushes onto a queue: the world's tick event ([world.on_tick]) or a
    sensor ([sensor.listen]).  Sensors are identified by a number. *)
Inductive Producer :=
  | OnTick
  | Sensor (id : nat).

Global Instance Producer_eq_dec : EqDecision Producer.
Proof. solve_decision. Defined.

(** [carla.WorldSettings], with the three fields the script sets. *)
Record WorldSettings := mkWorldSettings {
  no_rendering_mode : bool;
  synchronous_mode : bool;
  fixed_delta_seconds : Q
}.

Global Instance Q_eq_dec : EqDecision Q.
Proof. solve_decision. Defined.

Global Instance WorldSettings_eq_dec : EqDecision WorldSettings.
Proof. solve_decision. Defined.

(** Python exceptions that can leave the methods of the class:
    [queue.Empty] from [Queue.get], [AssertionError] from the assert of
    [tick], [ZeroDivisionError] from [1.0 / fps], and [TypeError] when
    [apply_settings] is handed [None]. *)
Inductive Exn :=
  | Empty
  | AssertionError
  | ZeroDivisionError
  | TypeError.

(** Outcome of a call: a returned value or a raised exception. *)
Inductive Res (A : Type) :=
  | Ret (a : A)
  | Raise (e : Exn).
Arguments Ret {A} a.
Arguments Raise {A} e.

(** The calls the synchroniser makes on the simulation handle and on the
    sensors, in the order it makes them. *)
Inductive Call :=
  | CallGetSettings
  | CallApplySettings (s : WorldSettings)
  | CallTick
  | CallOnTick (q : nat)
  | CallListen (sensor : nat) (q : nat).

(** A delivered item is opaque but for its [frame] attribute
    ([data.frame] in [_retrieve_data]). *)
Class FrameItem (Item : Type) := data_frame : Item → Z.

(** Modelled from the spec: the simulation handle ([carla.World]), which is
    not part of the script.  [get_settings] reads the mode settings,
    [apply_settings] installs settings and returns a frame id, and
    [world_tick] steps the simulation and returns the new frame id.  The
    producers' callbacks run in threads of their own; [world_tick] also
    yields the items they put on the queues in time for the [get]s of the
    current call. *)
Class SimulationHandle (World Item : Type) := {
  get_settings : World → WorldSettings;
  apply_settings : WorldSettings → World → Z * World;
  world_tick : World → Z * list (Producer * Item) * World
}.

(** Modelled from the spec: what the handle promises about its settings.
    Settings that were applied are the settings read back, and a step
    leaves them alone. *)
Class HandleLaws (World Item : Type) `{SimulationHandle World Item} : Prop := {
  get_apply_settings : ∀ s (w : World), get_settings (apply_settings s w).2 = s;
  get_tick_settings : ∀ w : World, get_settings (world_tick w).2 = get_settings w
}.

(** ** A scripted simulator

    Modelled from the spec: a concrete handle.  Every step increases the
    frame id by one and delivers the next batch of a script. *)
Record SimItem := mkSimItem {
  sim_item_frame : Z;
  sim_item_source : Producer
}.

Record SimWorld := mkSimWorld {
  sim_settings : WorldSettings;
  sim_frame : Z;
  sim_script : list (list (Producer * SimItem))
}.

Global Instance SimItem_frame : FrameItem SimItem := sim_item_frame.

Global Instance SimWorld_handle : SimulationHandle SimWorld SimItem := {|
  get_settings := sim_settings;
  apply_settings s w := (sim_frame w, mkSimWorld s (sim_frame w) (sim_script w));
  world_tick w :=
    (sim_frame w + 1, hd [] (sim_script w),
     mkSimWorld (sim_settings w) (sim_frame w + 1) (tl (sim_script w)))
|}.

(** ** The class *)

Section CarlaSyncMode.
Context {World Item : Type} `{FrameItem Item} `{SimulationHandle World Item}.

(** The instance attributes of [CarlaSyncMode].  A [queue.Queue] is the
    list of its items, oldest first.  [calls] records the calls made on
    the handle and the sensors; [callbacks] is the table of registered
    [q.put] callbacks, each naming its queue by position in [_queues]. *)
Record CarlaSyncMode := mkCarlaSyncMode {
  world : World;
  sensors : list nat;
  frame : option Z;
  delta_seconds : Q;
  _queues : list (list Item);
  _settings : option WorldSettings;
  calls : list Call;
  callbacks : list (Producer * nat)
}.

(** [__init__(self, world, *sensors, **kwargs)] *)
Definition __init__ (world : World) (sensors : list nat)
    (kwargs : gmap string Q) : Res CarlaSyncMode :=
  let fps := default (20 # 1)%Q (kwargs !! "fps") in
  if Qeq_bool fps 0 then Raise ZeroDivisionError
  else Ret (mkCarlaSyncMode world sensors None (1 / fps)%Q [] None [] []).

(** The settings [__enter__] applies. *)
Definition sync_settings (delta : Q) : WorldSettings :=
  mkWorldSettings false true delta.

(** [make_queue(register_event)]: a fresh queue, its [put] registered
    with the producer, appended to [self._queues]. *)
Definition register_call (p : Producer) (q : nat) : Call :=
  match p with
  | OnTick => CallOnTick q
  | Sensor s => CallListen s q
  end.

Definition make_queue (self : CarlaSyncMode) (p : Producer) : CarlaSyncMode :=
  let q := length (_queues self) in
  mkCarlaSyncMode (world self) (sensors self) (frame self)
    (delta_seconds self) (_queues self ++ [[]]) (_settings self)
    (calls self ++ [register_call p q]) (callbacks self ++ [(p, q)]).

(** [__enter__(self)] *)
Definition __enter__ (self : CarlaSyncMode) : CarlaSyncMode :=
  let saved := get_settings (world self) in
  let applied := sync_settings (delta_seconds self) in
  let '(f, w) := apply_settings applied (world self) in
  let self1 :=
    mkCarlaSyncMode w (sensors self) (Some f) (delta_seconds self)
      (_queues self) (Some saved)
      (calls self ++ [CallGetSettings; CallApplySettings applied])
      (callbacks self) in
  foldl (λ s sensor, make_queue s (Sensor sensor))
        (make_queue self1 OnTick) (sensors self).

(** [q.put(item)] on the queue at position [i]. *)
Definition put (i : nat) (x : Item) (qs : list (list Item)) : list (list Item) :=
  alter (λ q, q ++ [x]) i qs.

(** A producer calls every callback registered with it. *)
Definition deliver (cbs : list (Producer * nat)) (qs : list (list Item))
    (px : Producer * Item) : list (list Item) :=
  foldl (λ qs c, if decide (c.1 = px.1) then put c.2 px.2 qs else qs) qs cbs.

Definition deliver_all (cbs : list (Producer * nat))
    (arrivals : list (Producer * Item)) (qs : list (list Item)) :
    list (list Item) :=
  foldl (deliver cbs) qs arrivals.

(** [sensor_queue.get(timeout=timeout)]: the list holds the items that
    are there or arrive before the timeout; on an empty list the wait
    runs out and [queue.Empty] is raised. *)
Definition get (q : list Item) (timeout : Q) : Res Item * list Item :=
  match q with
  | [] => (Raise Empty, [])
  | data :: q' => (Ret data, q')
  end.

(** [_retrieve_data(self, sensor_queue, timeout)]: the [while True] loop,
    one iteration per item taken by [get]. *)
Fixpoint _retrieve_data (self_frame : option Z) (sensor_queue : list Item)
    (timeout : Q) : Res Item * list Item :=
  match sensor_queue with
  | [] => (Raise Empty, [])
  | data :: q' =>
      if decide (Some (data_frame data) = self_frame) then (Ret data, q')
      else _retrieve_data self_frame q' timeout
  end.

(** [[self._retrieve_data(q, timeout) for q in self._queues]]: left to
    right, stopping at the first exception. *)
Fixpoint retrieve_all (self_frame : option Z) (qs : list (list Item))
    (timeout : Q) : Res (list Item) * list (list Item) :=
  match qs with
  | [] => (Ret [], [])
  | q :: qs' =>
      match _retrieve_data self_frame q timeout with
      | (Ret x, q') =>
          match retrieve_all self_frame qs' timeout with
          | (Ret xs, qs'') => (Ret (x :: xs), q' :: qs'')
          | (Raise e, qs'') => (Raise e, q' :: qs'')
          end
      | (Raise e, q') => (Raise e, q' :: qs')
      end
  end.

(** The state of [tick] after [self.frame = self.world.tick()], with the
    items delivered for this call on their queues. *)
Definition stepped (self : CarlaSyncMode) : CarlaSyncMode :=
  let '(f, arrivals, w) := world_tick (world self) in
  mkCarlaSyncMode w (sensors self) (Some f) (delta_seconds self)
    (deliver_all (callbacks self) arrivals (_queues self))
    (_settings self) (calls self ++ [CallTick]) (callbacks self).

Definition set_queues (self : CarlaSyncMode) (qs : list (list Item)) :
    CarlaSyncMode :=
  mkCarlaSyncMode (world self) (sensors self) (frame self)
    (delta_seconds self) qs (_settings self) (calls self) (callbacks self).

(** [all(x.frame == self.frame for x in data)] *)
Definition all_frames (self_frame : option Z) (data : list Item) : bool :=
  forallb (λ x, bool_decide (Some (data_frame x) = self_frame)) data.

(** [tick(self, timeout)] *)
Definition tick (self : CarlaSyncMode) (timeout : Q) :
    Res (list Item) * CarlaSyncMode :=
  let self1 := stepped self in
  match retrieve_all (frame self1) (_queues self1) timeout with
  | (Ret data, qs) =>
      if all_frames (frame self1) data then (Ret data, set_queues self1 qs)
      else (Raise AssertionError, set_queues self1 qs)
  | (Raise e, qs) => (Raise e, set_queues self1 qs)
  end.

(** [__exit__(self, *args, **kwargs)].  The binding rejects [None] as
    settings, which is what [self._settings] holds before [__enter__]. *)
Definition __exit__ (self : CarlaSyncMode) : Res unit * CarlaSyncMode :=
  match _settings self with
  | Some s =>
      let '(_, w) := apply_settings s (world self) in
      (Ret (),
       mkCarlaSyncMode w (sensors self) (frame self) (delta_seconds self)
         (_queues self) (_settings self)
         (calls self ++ [CallApplySettings s]) (callbacks self))
  | None => (Raise TypeError, self)
  end.

End CarlaSyncMode.

(** ** Predicates used by the statements *)

Section Predicates.
Context {World Item : Type} `{FrameItem Item} `{SimulationHandle World Item}.

(** Queue [q] was popped from the front down to [x], the first item of
    frame [f]; [q'] is what is left behind it. *)
Definition drained (f : option Z) (q : list Item) (x : Item)
    (q' : list Item) : Prop :=
  ∃ popped,
    q = popped ++ x :: q' ∧ Some (data_frame x) = f ∧
    Forall (λ y, Some (data_frame y) ≠ f) popped.

(** The state between [__enter__] and [__exit__]: settings are saved, the
    handle is in synchronous mode, and there is one queue for the tick
    event and one per sensor. *)
Definition Active (self : @CarlaSyncMode World Item) : Prop :=
  is_Some (_settings self) ∧
  synchronous_mode (get_settings (world self)) = true ∧
  length (_queues self) = S (length (sensors self)).

(** The producers in registration order. *)
Definition producers (self : @CarlaSyncMode World Item) : list Producer :=
  OnTick :: map Sensor (sensors self).

(** What can happen inside the [with] block: a call of [tick], with any
    outcome, or a producer delivering an item between two calls.  [P]
    restricts the deliveries. *)
Inductive block_step (P : Producer * Item → Prop) :
    relation (@CarlaSyncMode World Item) :=
  | step_tick self timeout :
      Forall P (world_tick (world self)).1.2 →
      block_step P self (tick self timeout).2
  | step_deliver self px :
      P px →
      block_step P self
        (set_queues self (deliver (callbacks self) (_queues self) px)).

(** How many times the saved settings were handed back to the handle. *)
Definition is_restoration (saved : option WorldSettings) (c : Call) : bool :=
  match c with
  | CallApplySettings s => bool_decide (Some s = saved)
  | _ => false
  end.

Definition restorations (self : @CarlaSyncMode World Item) : nat :=
  length (filter (λ c, is_restoration (_settings self) c) (calls self)).

(** Every queue holds items of its own producer only, according to a
    reading [src] of the items. *)
Definition sourced (src : Item → Producer)
    (self : @CarlaSyncMode World Item) : Prop :=
  Forall2 (λ p q, Forall (λ x, src x = p) q) (producers self) (_queues self).

(** Deliveries in which every item is put by the producer it names. *)
Definition well_sourced (src : Item → Producer) (px : Producer * Item) : Prop :=
  src px.2 = px.1.

(** Every callback feeds the queue at its producer's position. *)
Definition routed (self : @CarlaSyncMode World Item) : Prop :=
  Forall (λ c, producers self !! c.2 = Some c.1) (callbacks self).

End Predicates.

(** ** Concrete inputs *)

Definition demo_settings : WorldSettings := mkWorldSettings true false 0%Q.

Definition demo_world (script : list (list (Producer * SimItem))) : SimWorld :=
  mkSimWorld demo_settings 10 script.

(** The object [CarlaSyncMode(world, sensor7)] builds. *)
Definition demo_init (script : list (list (Producer * SimItem))) :
    @CarlaSyncMode SimWorld SimItem :=
  mkCarlaSyncMode (demo_world script) [7%nat] None (1 # 20)%Q [] None [] [].

Definition snapshot (f : Z) : SimItem := mkSimItem f OnTick.
Definition image (f : Z) : SimItem := mkSimItem f (Sensor 7).

(** One step in which both producers deliver the item of the new frame. *)
Definition on_time (f : Z) : list (Producer * SimItem) :=
  [(OnTick, snapshot f); (Sensor 7, image f)].

(** The object after [__enter__]. *)
Definition demo_entered (script : list (list (Producer * SimItem))) :
    @CarlaSyncMode SimWorld SimItem :=
  __enter__ (demo_init script).

(** A step in which the camera image of the new frame comes before the
    snapshot. *)
Definition image_first (f : Z) : list (Producer * SimItem) :=
  [(Sensor 7, image f); (OnTick, snapshot f)].


(** A step in which only the snapshot arrives in time. *)
Definition snapshot_only (f : Z) : list (Producer * SimItem) :=
  [(OnTick, snapshot f)].

(** The caller's own [world.apply_settings(s)], made outside the class. *)
Definition reconfigured (self : @CarlaSyncMode SimWorld SimItem)
    (s : WorldSettings) : @CarlaSyncMode SimWorld SimItem :=
  mkCarlaSyncMode (apply_settings s (world self)).2 (sensors self) (frame self)
    (delta_seconds self) (_queues self) (_settings self) (calls self)
    (callbacks self).

Definition other_settings : WorldSettings := mkWorldSettings false false (1 # 10)%Q.

(** ** The script around the class *)

(** Exceptions of the script's own functions, beside those of the class:
    [ValueError] from [np.reshape] and from unpacking, [IndexError] from
    [fonts[0]]. *)
Inductive ScriptExn :=
  | ClassExn (e : Exn)
  | ValueError
  | IndexError.

Inductive Result (A : Type) :=
  | Ok (a : A)
  | Err (e : ScriptExn).
Arguments Ok {A} a.
Arguments Err {A} e.

(** A pygame event, by its [type]; a [KEYUP] event carries its [key]. *)
Inductive Event :=
  | QUIT
  | KEYUP (key : Z)
  | OtherEvent (type : Z).

(** [pygame.K_ESCAPE] *)
Definition K_ESCAPE : Z := 27.

(** [should_quit()], on the list [pygame.event.get()] returns. *)
Fixpoint should_quit (events : list Event) : bool :=
  match events with
  | [] => false
  | QUIT :: _ => true
  | KEYUP key :: rest =>
      if decide (key = K_ESCAPE) then true else should_quit rest
  | OtherEvent _ :: rest => should_quit rest
  end.

(** [get_font()], up to the name it hands to [pygame.font.match_font];
    [fonts] is what [pygame.font.get_fonts()] returns. *)
Definition default_font : string := "ubuntumono".

Definition get_font (fonts : list string) : Result string :=
  if decide (default_font ∈ fonts) then Ok default_font
  else match fonts with
       | font :: _ => Ok font
       | [] => Err IndexError
       end.

(** [np.reshape] of a flat array into [k] rows of [n]. *)
Fixpoint reshape {A : Type} (k n : nat) (l : list A) : list (list A) :=
  match k with
  | O => []
  | S k' => take n l :: reshape k' n (drop n l)
  end.

(** [array.swapaxes(0, 1)] of an array with rows of length [w]. *)
Definition swapaxes {A : Type} (w : nat) (m : list (list (list A))) :
    list (list (list A)) :=
  map (λ x, map (λ row, default [] (row !! x)) m) (seq 0 w).

(** The array [draw_image] hands to [pygame.surfarray.make_surface]. *)
Definition draw_image_array (raw_data : list Byte.byte) (height width : nat) :
    Result (list (list (list Byte.byte))) :=
  if decide (length raw_data = (height * width * 4)%nat) then
    let array := reshape height width (reshape (height * width) 4 raw_data) in
    let array := map (map (take 3)) array in
    let array := map (map reverse) array in
    Ok (swapaxes width array)
  else Err ValueError.

(** The surface [draw_image] blits: its pixels and the alpha it was given,
    if any. *)
Record Surface := mkSurface {
  surface_pixels : list (list (list Byte.byte));
  surface_alpha : option Z
}.

(** [draw_image(surface, image, blend)], up to the blit. *)
Definition draw_image (raw_data : list Byte.byte) (height width : nat)
    (blend : bool) : Result Surface :=
  match draw_image_array raw_data height width with
  | Ok array => Ok (mkSurface array (if blend then Some 100 else None))
  | Err e => Err e
  end.


Section Main.
Context {World Item : Type} `{FrameItem Item} `{SimulationHandle World Item}.



End Main.

(** ** The handle model satisfies its laws *)

Global Instance SimWorld_laws : HandleLaws SimWorld SimItem.
Proof. split; reflexivity. Qed.

(** ** Retrieval from one queue *)

Section Retrieval.
Context {Item : Type} `{FrameItem Item}.
Implicit Types (q : list Item) (qs : list (list Item)) (f : option Z).

(** One iteration of the loop: a [get], then the comparison. *)
Lemma retrieve_data_get f q timeout :
  _retrieve_data f q timeout =
    match get q timeout with
    | (Ret data, q') =>
        if decide (Some (data_frame data) = f) then (Ret data, q')
        else _retrieve_data f q' timeout
    | (Raise e, q') => (Raise e, q')
    end.
Proof. by destruct q. Qed.

Lemma retrieve_data_Ret_inv f q timeout x q' :
  _retrieve_data f q timeout = (Ret x, q') → drained f q x q'.
Proof.
  induction q as [|y q IH]; simpl; [done|].
  case_decide as Hy.
  - intros [= -> ->]. by exists [].
  - intros (popped & -> & Hx & Hp)%IH.
    exists (y :: popped). by repeat split; [|constructor].
Qed.

Lemma retrieve_data_Raise_inv f q timeout e q' :
  _retrieve_data f q timeout = (Raise e, q') →
  e = Empty ∧ q' = [] ∧ Forall (λ y, Some (data_frame y) ≠ f) q.
Proof.
  induction q as [|y q IH]; simpl.
  - by intros [= <- <-].
  - case_decide; [done|]. intros (-> & -> & Hq)%IH. by repeat split; [constructor].
Qed.

Lemma retrieve_data_app f popped x rest timeout :
  Forall (λ y, Some (data_frame y) ≠ f) popped →
  Some (data_frame x) = f →
  _retrieve_data f (popped ++ x :: rest) timeout = (Ret x, rest).
Proof.
  intros Hp Hx. induction Hp as [|y popped Hy _ IH]; simpl.
  - by rw decide_True.
  - by rw decide_False.
Qed.


Lemma drained_length f q x q' :
  drained f q x q' → (length q' < length q)%nat.
Proof. intros (popped & -> & _). rw length_app /=. lia. Qed.

Lemma drained_suffix f q x q' : drained f q x q' → q' `suffix_of` q.
Proof.
  intros (popped & -> & _). exists (popped ++ [x]). by rw -assoc.
Qed.

Lemma drained_elem f q x q' : drained f q x q' → x ∈ q.
Proof. intros (popped & -> & _). set_solver. Qed.

(** *** The whole comprehension *)

Lemma retrieve_all_Ret_inv f qs timeout data qs' :
  retrieve_all f qs timeout = (Ret data, qs') →
  Forall3 (drained f) qs data qs'.
Proof.
  revert data qs'. induction qs as [|q qs IH]; intros data qs'; simpl.
  - intros [= <- <-]. constructor.
  - destruct (_retrieve_data f q timeout) as [[x|e] q1] eqn:Hq; [|done].
    destruct (retrieve_all f qs timeout) as [[xs|e] qs1]; [|done].
    intros [= <- <-]. constructor; [by eapply retrieve_data_Ret_inv|by apply IH].
Qed.


Lemma retrieve_all_length f qs timeout :
  length (retrieve_all f qs timeout).2 = length qs.
Proof.
  induction qs as [|q qs IH]; simpl; [done|].
  destruct (_retrieve_data f q timeout) as [[x|e1] q1]; [|done].
  destruct (retrieve_all f qs timeout) as [[xs|e2] qs1]; simpl in *; lia.
Qed.


Lemma retrieve_all_app f (ts : list (list Item * Item * list Item)) timeout :
  Forall (λ t, Forall (λ y, Some (data_frame y) ≠ f) t.1.1 ∧
               Some (data_frame t.1.2) = f) ts →
  retrieve_all f (map (λ t, t.1.1 ++ t.1.2 :: t.2) ts) timeout =
    (Ret (map (λ t, t.1.2) ts), map snd ts).
Proof.
  induction 1 as [|[[popped x] rest] ts [Hp Hx] _ IH]; simpl in *; [done|].
  by rw retrieve_data_app // IH.
Qed.

Lemma all_frames_Forall f (data : list Item) :
  all_frames f data = true ↔ Forall (λ x, Some (data_frame x) = f) data.
Proof.
  unfold all_frames. rw forallb_forall Forall_forall.
  split; intros Hall x Hx.
  - apply list_elem_of_In, Hall in Hx. by apply bool_decide_eq_true in Hx.
  - apply bool_decide_eq_true, Hall. by apply list_elem_of_In.
Qed.

End Retrieval.

(** ** Delivery *)

Section Delivery.
Context {Item : Type}.
Implicit Types (qs : list (list Item)) (cbs : list (Producer * nat)).

Lemma put_length i (x : Item) qs : length (put i x qs) = length qs.
Proof. apply length_alter. Qed.

Lemma deliver_length cbs qs (px : Producer * Item) :
  length (deliver cbs qs px) = length qs.
Proof.
  unfold deliver. revert qs. induction cbs as [|c cbs IH]; intros qs; simpl; [done|].
  rw IH. case_decide; [apply put_length|done].
Qed.

Lemma deliver_all_length cbs (arrivals : list (Producer * Item)) qs :
  length (deliver_all cbs arrivals qs) = length qs.
Proof.
  unfold deliver_all. revert qs.
  induction arrivals as [|px arrivals IH]; intros qs; simpl; [done|].
  by rw IH deliver_length.
Qed.

(** An item goes to the queues of its producer only: a property [Q] that
    relates producers and queues survives when pushing an item of [p]
    onto a queue of [p] keeps it. *)
Lemma deliver_Forall2 (Q : Producer → list Item → Prop) ps cbs qs
    (px : Producer * Item) :
  (∀ q, Q px.1 q → Q px.1 (q ++ [px.2])) →
  Forall (λ c, ps !! c.2 = Some c.1) cbs →
  Forall2 Q ps qs → Forall2 Q ps (deliver cbs qs px).
Proof.
  intros Hpush Hcbs. unfold deliver. revert qs.
  induction Hcbs as [|[p i] cbs Hc _ IH]; intros qs Hqs; simpl in *; [done|].
  apply IH. case_decide as Hp; [|done]. subst p. unfold put.
  apply Forall2_lookup. intros j. destruct (decide (i = j)) as [->|Hij].
  - rw list_lookup_alter_eq.
    pose proof (Forall2_lookup_l _ _ _ _ _ Hqs Hc) as (q & Hq & HQ).
    rw Hq Hc /=. constructor. by apply Hpush.
  - rw list_lookup_alter_ne //. by apply Forall2_lookup.
Qed.

Lemma deliver_all_Forall2 (Q : Producer → list Item → Prop) ps cbs qs
    (arrivals : list (Producer * Item)) :
  Forall (λ px, ∀ q, Q px.1 q → Q px.1 (q ++ [px.2])) arrivals →
  Forall (λ c, ps !! c.2 = Some c.1) cbs →
  Forall2 Q ps qs → Forall2 Q ps (deliver_all cbs arrivals qs).
Proof.
  intros Harr Hcbs. unfold deliver_all. revert qs.
  induction Harr as [|px arrivals Hpx _ IH]; intros qs Hqs; simpl; [done|].
  by apply IH, deliver_Forall2.
Qed.

End Delivery.

(** ** One call of [tick] *)

Section Tick.
Context {World Item : Type} `{FrameItem Item} `{SimulationHandle World Item}.
Implicit Types (self : @CarlaSyncMode World Item) (timeout : Q).

Lemma stepped_frame self : frame (stepped self) = Some (world_tick (world self)).1.1.
Proof. unfold stepped. by destruct (world_tick (world self)) as [[f a] w]. Qed.

Lemma stepped_world self : world (stepped self) = (world_tick (world self)).2.
Proof. unfold stepped. by destruct (world_tick (world self)) as [[f a] w]. Qed.

Lemma stepped_queues self :
  _queues (stepped self) =
    deliver_all (callbacks self) (world_tick (world self)).1.2 (_queues self).
Proof. unfold stepped. by destruct (world_tick (world self)) as [[f a] w]. Qed.

Lemma stepped_calls self : calls (stepped self) = calls self ++ [CallTick].
Proof. unfold stepped. by destruct (world_tick (world self)) as [[f a] w]. Qed.

Lemma stepped_same self :
  sensors (stepped self) = sensors self ∧
  delta_seconds (stepped self) = delta_seconds self ∧
  _settings (stepped self) = _settings self ∧
  callbacks (stepped self) = callbacks self.
Proof. unfold stepped. by destruct (world_tick (world self)) as [[f a] w]. Qed.

(** [tick] changes the object by the step and by what retrieval takes
    off the queues, whatever the outcome. *)
Lemma tick_state self timeout :
  (tick self timeout).2 =
    set_queues (stepped self)
      (retrieve_all (frame (stepped self)) (_queues (stepped self)) timeout).2.
Proof.
  unfold tick.
  destruct (retrieve_all _ _ _) as [[data|e] qs]; [|done].
  by destruct (all_frames _ _).
Qed.

Lemma tick_Ret_inv self timeout data self' :
  tick self timeout = (Ret data, self') →
  retrieve_all (frame (stepped self)) (_queues (stepped self)) timeout =
    (Ret data, _queues self') ∧
  self' = set_queues (stepped self) (_queues self').
Proof.
  unfold tick.
  destruct (retrieve_all _ _ _) as [[xs|e] qs]; [|done].
  destruct (all_frames _ _); [|done]. by intros [= <- <-].
Qed.

(** The assert of [tick] holds whenever it is reached. *)
Lemma tick_assert_holds self timeout data qs :
  retrieve_all (frame (stepped self)) (_queues (stepped self)) timeout =
    (Ret data, qs) →
  all_frames (frame (stepped self)) data = true.
Proof.
  intros Hall%retrieve_all_Ret_inv. apply all_frames_Forall.
  induction Hall as [|q x q' qs0 data qs1 (_ & _ & Hx & _) _ IH]; by constructor.
Qed.


Lemma tick_frame self timeout :
  frame (tick self timeout).2 = Some (world_tick (world self)).1.1.
Proof. by rw tick_state /= stepped_frame. Qed.

Lemma tick_same self timeout :
  sensors (tick self timeout).2 = sensors self ∧
  delta_seconds (tick self timeout).2 = delta_seconds self ∧
  _settings (tick self timeout).2 = _settings self ∧
  callbacks (tick self timeout).2 = callbacks self ∧
  world (tick self timeout).2 = (world_tick (world self)).2 ∧
  calls (tick self timeout).2 = calls self ++ [CallTick] ∧
  length (_queues (tick self timeout).2) = length (_queues self).
Proof.
  rw tick_state /=. rw retrieve_all_length stepped_queues deliver_all_length.
  rw stepped_world stepped_calls. by destruct (stepped_same self) as (-> & -> & -> & ->).
Qed.

(** A bundle is returned as soon as every queue has an item of the new
    frame behind items of other frames. *)
Lemma tick_returns self timeout (ts : list (list Item * Item * list Item)) :
  _queues (stepped self) = map (λ t, t.1.1 ++ t.1.2 :: t.2) ts →
  Forall (λ t, Forall (λ y, Some (data_frame y) ≠ frame (stepped self)) t.1.1 ∧
               Some (data_frame t.1.2) = frame (stepped self)) ts →
  tick self timeout =
    (Ret (map (λ t, t.1.2) ts), set_queues (stepped self) (map snd ts)).
Proof.
  intros Hqs Hts. unfold tick.
  pose proof (retrieve_all_app _ _ timeout Hts) as Hall. rw -Hqs in Hall.
  by rw Hall (tick_assert_holds _ _ _ _ Hall).
Qed.

(** C1: when [tick(timeout)] returns a bundle, [self.frame] is the frame
    id the step returned, every item of the bundle has that frame id, any
    two items of the bundle have the same frame id, and the check of the
    assert, made before returning, holds. *)
Theorem tick_frame_alignment self timeout data self' :
  tick self timeout = (Ret data, self') →
  frame self' = Some (world_tick (world self)).1.1 ∧
  Forall (λ x, data_frame x = (world_tick (world self)).1.1) data ∧
  (∀ x y, x ∈ data → y ∈ data → data_frame x = data_frame y) ∧
  all_frames (frame self') data = true.
Proof.
  intros Htick. pose proof (tick_frame self timeout) as Hf. rw Htick /= in Hf.
  apply tick_Ret_inv in Htick as [Hall Hself].
  pose proof (tick_assert_holds _ _ _ _ Hall) as Hassert.
  rw stepped_frame -Hf in Hassert.
  assert (Forall (λ x, data_frame x = (world_tick (world self)).1.1) data) as Hdata.
  { apply all_frames_Forall in Hassert. rw Hf in Hassert.
    eapply Forall_impl; [done|]. by intros x [= ->]. }
  split_and!; [done..| |done].
  rw Forall_forall in Hdata. intros x y Hx Hy. by rw (Hdata x Hx) (Hdata y Hy).
Qed.


(** The queue [N-2, N-1, N], for every [N]. *)
Lemma retrieve_data_three (N : Z) (a b c : Item) (rest : list Item) timeout :
  data_frame a = N - 2 → data_frame b = N - 1 → data_frame c = N →
  _retrieve_data (Some N) (a :: b :: c :: rest) timeout = (Ret c, rest) ∧
  length (a :: b :: c :: rest) = (length rest + (2 + 1))%nat.
Proof.
  intros Ha Hb Hc. split; [|simpl; lia].
  apply (retrieve_data_app (Some N) [a; b] c rest timeout); [|by rw Hc].
  repeat constructor; intros [= ?]; lia.
Qed.



(** What is left on a queue by any call of [tick] is a tail of what was
    on it after the step, in the same order. *)
Lemma tick_queues_suffix self timeout i q q' :
  _queues (stepped self) !! i = Some q →
  _queues (tick self timeout).2 !! i = Some q' →
  q' `suffix_of` q.
Proof.
  rw tick_state /=.
  generalize (frame (stepped self)) (_queues (stepped self)). intros f qs.
  revert i. induction qs as [|q0 qs IH]; intros i; simpl; [done|].
  destruct (_retrieve_data f q0 timeout) as [[x|e] q1] eqn:Hq0.
  - apply retrieve_data_Ret_inv, drained_suffix in Hq0.
    destruct (retrieve_all f qs timeout) as [[xs|e] qs1] eqn:Hqs;
      (destruct i as [|i]; simpl; [by intros [= <-] [= <-]|
                                   by apply IH]).
  - apply retrieve_data_Raise_inv in Hq0 as (_ & -> & _).
    destruct i as [|i]; simpl.
    + intros _ [= <-]. apply suffix_nil.
    + intros -> [= <-]. done.
Qed.

End Tick.

(** ** Construction, entry and exit *)

Section Scope.
Context {World Item : Type} `{FrameItem Item} `{SimulationHandle World Item}.
Implicit Types (self : @CarlaSyncMode World Item) (timeout : Q).

(** The loop over the sensors in [__enter__]. *)
Lemma make_queues_state self (l : list nat) :
  let r := foldl (λ s sensor, make_queue s (Sensor sensor)) self l in
  world r = world self ∧ sensors r = sensors self ∧ frame r = frame self ∧
  delta_seconds r = delta_seconds self ∧ _settings r = _settings self ∧
  _queues r = _queues self ++ replicate (length l) [] ∧
  callbacks r =
    callbacks self ++ zip (map Sensor l) (seq (length (_queues self)) (length l)) ∧
  calls r =
    calls self ++
    zip_with register_call (map Sensor l) (seq (length (_queues self)) (length l)).
Proof.
  revert self. induction l as [|s l IH]; intros self; simpl.
  - by rw !app_nil_r.
  - destruct (IH (make_queue self (Sensor s)))
      as (-> & -> & -> & -> & -> & -> & -> & ->).
    simpl. rw length_app /= Nat.add_1_r. by rw -!assoc.
Qed.

Lemma enter_state self :
  let applied := sync_settings (delta_seconds self) in
  let ns := seq (length (_queues self)) (S (length (sensors self))) in
  world (__enter__ self) = (apply_settings applied (world self)).2 ∧
  sensors (__enter__ self) = sensors self ∧
  frame (__enter__ self) = Some (apply_settings applied (world self)).1 ∧
  delta_seconds (__enter__ self) = delta_seconds self ∧
  _settings (__enter__ self) = Some (get_settings (world self)) ∧
  _queues (__enter__ self) =
    _queues self ++ replicate (S (length (sensors self))) [] ∧
  callbacks (__enter__ self) = callbacks self ++ zip (producers self) ns ∧
  calls (__enter__ self) =
    calls self ++ [CallGetSettings; CallApplySettings applied] ++
    zip_with register_call (producers self) ns.
Proof.
  unfold __enter__.
  destruct (apply_settings _ (world self)) as [f w].
  match goal with |- context [foldl _ ?s ?l] =>
    destruct (make_queues_state s l) as (-> & -> & -> & -> & -> & -> & -> & ->)
  end.
  simpl. rw length_app /= Nat.add_1_r. by rw -!assoc.
Qed.

(** Positions handed out from [0] on are the positions of the producers. *)
Lemma zip_seq_routed (ps : list Producer) :
  Forall (λ c, ps !! c.2 = Some c.1) (zip ps (seq 0 (length ps))).
Proof.
  apply Forall_lookup. intros i [p j] Hc.
  apply lookup_zip_with_Some in Hc as (p' & j' & [= -> ->] & Hp & Hj).
  apply lookup_seq in Hj as [-> _]. done.
Qed.

Lemma init_fresh (w : World) sns kwargs self :
  __init__ w sns kwargs = Ret self →
  world self = w ∧ sensors self = sns ∧ frame self = None ∧
  _queues self = [] ∧ _settings self = None ∧ calls self = [] ∧
  callbacks self = [].
Proof. unfold __init__. case_match; [done|]. by intros [= <-]. Qed.

(** A freshly built object is in the active state after [__enter__]. *)
Lemma enter_Active `{!HandleLaws World Item} self :
  _queues self = [] → Active (__enter__ self).
Proof.
  intros Hq. unfold Active.
  destruct (enter_state self) as (-> & -> & _ & _ & -> & -> & _).
  rw Hq /= get_apply_settings length_replicate. by split_and!.
Qed.

Lemma tick_Active `{!HandleLaws World Item} self timeout :
  Active self → Active (tick self timeout).2.
Proof.
  intros (Hs & Hm & Hl). unfold Active.
  destruct (tick_same self timeout) as (-> & _ & -> & _ & -> & _ & ->).
  by rw get_tick_settings.
Qed.


(** The saved settings are not touched inside the block. *)
Lemma block_settings P self self' :
  rtc (block_step P) self self' → _settings self' = _settings self.
Proof.
  induction 1 as [|self self1 self2 Hstep _ IH]; [done|].
  rw IH. destruct Hstep as [self timeout _|self px _]; [|done].
  by destruct (tick_same self timeout) as (_ & _ & -> & _).
Qed.

(** C5: [__enter__] reads the settings of the handle before it applies
    its own, and keeps what it read; whatever calls of [tick] are made in
    the block and however they end, [__exit__] returns and leaves the
    handle with the settings read at entry. *)
Theorem exit_restores_settings `{!HandleLaws World Item}
    (P : Producer * Item → Prop) self0 self :
  rtc (block_step P) (__enter__ self0) self →
  _settings (__enter__ self0) = Some (get_settings (world self0)) ∧
  (∃ registrations,
     calls (__enter__ self0) =
       calls self0 ++
       CallGetSettings ::
       CallApplySettings (sync_settings (delta_seconds self0)) ::
       registrations) ∧
  ∃ self',
    __exit__ self = (Ret (), self') ∧
    get_settings (world self') = get_settings (world self0).
Proof.
  intros Hblock. apply block_settings in Hblock.
  destruct (enter_state self0) as (_ & _ & _ & _ & Hsaved & _ & _ & Hcalls).
  split_and!; [done|rw Hcalls; by eexists|].
  rw Hsaved in Hblock. unfold __exit__. rw Hblock.
  pose proof (get_apply_settings (get_settings (world self0)) (world self)) as Hw.
  destruct (apply_settings _ (world self)) as [f w]. by eexists.
Qed.

(** C7 as amended: the settings [__enter__] applies have
    [no_rendering_mode] off, so rendering stays enabled, have
    [synchronous_mode] on, and have [fixed_delta_seconds] equal to
    [delta_seconds]; the frame id that call returns becomes [self.frame].
    The queues are registered afterwards, tick event first. *)
Theorem enter_applies_sync_settings self :
  calls (__enter__ self) =
    calls self ++
    [CallGetSettings;
     CallApplySettings (mkWorldSettings false true (delta_seconds self))] ++
    zip_with register_call (producers self)
      (seq (length (_queues self)) (S (length (sensors self)))) ∧
  frame (__enter__ self) =
    Some (apply_settings (mkWorldSettings false true (delta_seconds self))
            (world self)).1 ∧
  world (__enter__ self) =
    (apply_settings (mkWorldSettings false true (delta_seconds self))
       (world self)).2.
Proof. by destruct (enter_state self) as (-> & _ & -> & _ & _ & _ & _ & ->). Qed.


(** C9 as amended: a second [__exit__] does not raise, but it is not
    idle: each exit hands the saved settings to the handle, so they are
    applied twice; after either exit the settings of the handle are the
    saved ones. *)
Theorem exit_twice `{!HandleLaws World Item} self self1 :
  __exit__ self = (Ret (), self1) →
  ∃ s self2,
    _settings self = Some s ∧
    __exit__ self1 = (Ret (), self2) ∧
    calls self2 = calls self ++ [CallApplySettings s; CallApplySettings s] ∧
    get_settings (world self1) = s ∧
    get_settings (world self2) = s.
Proof.
  unfold __exit__. destruct (_settings self) as [s|] eqn:Hs; [|done].
  pose proof (get_apply_settings s (world self)) as Hw1.
  destruct (apply_settings s (world self)) as [f1 w1]. intros [= <-]. simpl.
  pose proof (get_apply_settings s w1) as Hw2.
  destruct (apply_settings s w1) as [f2 w2].
  eexists s, _. split_and!; [done..| |done|done]. simpl. by rw -assoc.
Qed.

End Scope.

(** ** Order of the bundle *)

Section Order.
Context {World Item : Type} `{FrameItem Item} `{SimulationHandle World Item}.
Context (src : Item → Producer).
Implicit Types (self : @CarlaSyncMode World Item) (timeout : Q).

Lemma retrieve_all_suffixes (f : option Z) (qs : list (list Item)) timeout :
  Forall2 (λ q' q, q' `suffix_of` q) (retrieve_all f qs timeout).2 qs.
Proof.
  induction qs as [|q qs IH]; simpl; [constructor|].
  destruct (_retrieve_data f q timeout) as [[x|e] q1] eqn:Hq.
  - apply retrieve_data_Ret_inv, drained_suffix in Hq.
    destruct (retrieve_all f qs timeout) as [[xs|e] qs1]; by constructor.
  - apply retrieve_data_Raise_inv in Hq as (_ & -> & _).
    constructor; [apply suffix_nil|]. by apply Forall_Forall2_diag, Forall_true.
Qed.

Lemma sourced_suffixes (ps : list Producer) (qs qs' : list (list Item)) :
  Forall2 (λ p q, Forall (λ x, src x = p) q) ps qs →
  Forall2 (λ q' q, q' `suffix_of` q) qs' qs →
  Forall2 (λ p q, Forall (λ x, src x = p) q) ps qs'.
Proof.
  intros Hps. revert qs'.
  induction Hps as [|p q ps qs Hq _ IH]; intros qs' Hsuf.
  - apply Forall2_nil_inv_r in Hsuf as ->. constructor.
  - apply Forall2_cons_inv_r in Hsuf as (q' & qs1 & [k ->] & Hsuf & ->).
    apply Forall_app in Hq as [_ Hq]. constructor; [done|by apply IH].
Qed.

(** The items taken off sourced queues name the producers in order. *)
Lemma drained_sources (f : option Z) (ps : list Producer)
    (qs : list (list Item)) (data : list Item) (qs' : list (list Item)) :
  Forall3 (drained f) qs data qs' →
  Forall2 (λ p q, Forall (λ x, src x = p) q) ps qs →
  map src data = ps.
Proof.
  intros Hall. revert ps.
  induction Hall as [|q x q' qs data qs' Hx _ IH]; intros ps Hps.
  - by apply Forall2_nil_inv_r in Hps as ->.
  - apply Forall2_cons_inv_r in Hps as (p & ps' & Hq & Hps & ->).
    apply drained_elem in Hx. rw Forall_forall in Hq.
    simpl. by rw (Hq x Hx) (IH ps' Hps).
Qed.

Lemma stepped_sourced self :
  Forall (well_sourced src) (world_tick (world self)).1.2 →
  routed self → sourced src self →
  Forall2 (λ p q, Forall (λ x, src x = p) q)
    (producers self) (_queues (stepped self)).
Proof.
  intros Harr Hr Hs. rw stepped_queues.
  apply deliver_all_Forall2; [|done..].
  eapply Forall_impl; [done|]. intros [p x] Hpx q Hq. simpl in *.
  apply Forall_app. split; [done|]. by repeat constructor.
Qed.

Lemma block_step_sourced self self' :
  block_step (well_sourced src) self self' →
  routed self → sourced src self →
  sensors self' = sensors self ∧ callbacks self' = callbacks self ∧
  routed self' ∧ sourced src self'.
Proof.
  intros [self1 timeout Harr|self1 [p x] Hpx] Hr Hs.
  - destruct (tick_same self1 timeout) as (Hsens & _ & _ & Hcbs & _).
    split_and!; [done..| |].
    + unfold routed, producers. by rw Hsens Hcbs.
    + unfold sourced, producers. rw Hsens tick_state /=.
      eapply sourced_suffixes; [|apply retrieve_all_suffixes].
      by apply stepped_sourced.
  - split_and!; [done..|]. unfold sourced, producers. simpl.
    apply deliver_Forall2; [|done..].
    intros q Hq. apply Forall_app. split; [done|]. by repeat constructor.
Qed.

Lemma block_sourced self self' :
  rtc (block_step (well_sourced src)) self self' →
  routed self → sourced src self →
  sensors self' = sensors self ∧ callbacks self' = callbacks self ∧
  routed self' ∧ sourced src self'.
Proof.
  induction 1 as [|self self1 self2 Hstep _ IH]; [done|]. intros Hr Hs.
  destruct (block_step_sourced _ _ Hstep Hr Hs) as (Hsens & Hcbs & Hr1 & Hs1).
  destruct (IH Hr1 Hs1) as (-> & -> & ? & ?). done.
Qed.

Lemma enter_sourced self :
  _queues self = [] → callbacks self = [] →
  callbacks (__enter__ self) =
    zip (producers self) (seq 0 (S (length (sensors self)))) ∧
  producers (__enter__ self) = producers self ∧
  routed (__enter__ self) ∧ sourced src (__enter__ self).
Proof.
  intros Hq Hc.
  destruct (enter_state self) as (_ & Hsens & _ & _ & _ & Hqs & Hcbs & _).
  assert (producers (__enter__ self) = producers self) as Hprod
    by (by rw /producers Hsens).
  assert (length (producers self) = S (length (sensors self))) as Hlen
    by (by rw /producers /= length_map).
  rw Hq Hc in Hcbs. rw Hq in Hqs. split_and!; [done..| |].
  - unfold routed. rw Hprod Hcbs -Hlen. apply zip_seq_routed.
  - unfold sourced. rw Hprod Hqs.
    apply Forall2_replicate_r; [done|]. apply Forall_true. intros p. constructor.
Qed.

(** C6: for an object built by [__init__] and entered, after any
    deliveries and calls of [tick] in the block, a bundle returned by
    [tick] holds the item of the tick event first and then one item per
    sensor, in the order the sensors were given to [__init__]; the
    callbacks were registered in that order. *)
Theorem tick_bundle_order (w : World) (sns : list nat) (kwargs : gmap string Q)
    self0 self timeout (data : list Item) self' :
  __init__ w sns kwargs = Ret self0 →
  rtc (block_step (well_sourced src)) (__enter__ self0) self →
  Forall (well_sourced src) (world_tick (world self)).1.2 →
  tick self timeout = (Ret data, self') →
  callbacks self = zip (OnTick :: map Sensor sns) (seq 0 (S (length sns))) ∧
  map src data = OnTick :: map Sensor sns.
Proof.
  intros (_ & Hsns & _ & Hq & _ & _ & Hc)%init_fresh Hblock Harr Htick.
  destruct (enter_sourced self0 Hq Hc) as (Hcbs & Hps & Hr & Hs).
  destruct (block_sourced _ _ Hblock Hr Hs) as (Hsens & Hcbs' & Hr' & Hs').
  assert (producers self = OnTick :: map Sensor sns) as Hprod.
  { unfold producers in *. rw -Hsns. congruence. }
  split.
  - rw Hcbs' Hcbs. by rw /producers Hsns.
  - apply tick_Ret_inv in Htick as [Hall%retrieve_all_Ret_inv _].
    rw -Hprod. eapply drained_sources; [done|].
    by apply stepped_sourced.
Qed.

End Order.

(** ** The statements on concrete runs *)

Lemma demo_init_eq script :
  __init__ (demo_world script) [7%nat] ∅ = Ret (demo_init script).
Proof. reflexivity. Qed.

Lemma tick_frame_alignment_witness :
  frame (tick (demo_entered [on_time 11]) 1%Q).2 =
    Some (world_tick (world (demo_entered [on_time 11]))).1.1 ∧
  Forall (λ x, data_frame x = (world_tick (world (demo_entered [on_time 11]))).1.1)
    [snapshot 11; image 11] ∧
  (∀ x y, x ∈ [snapshot 11; image 11] → y ∈ [snapshot 11; image 11] →
          data_frame x = data_frame y) ∧
  all_frames (frame (tick (demo_entered [on_time 11]) 1%Q).2)
    [snapshot 11; image 11] = true.
Proof.
  apply (tick_frame_alignment (demo_entered [on_time 11]) 1%Q).
  vm_compute. reflexivity.
Defined.





Lemma exit_restores_settings_witness :
  _settings (__enter__ (demo_init [on_time 11])) =
    Some (get_settings (world (demo_init [on_time 11]))) ∧
  (∃ registrations,
     calls (__enter__ (demo_init [on_time 11])) =
       calls (demo_init [on_time 11]) ++
       CallGetSettings ::
       CallApplySettings (sync_settings (delta_seconds (demo_init [on_time 11]))) ::
       registrations) ∧
  ∃ self',
    __exit__ (tick (tick (demo_entered [on_time 11]) 1%Q).2 1%Q).2 = (Ret (), self') ∧
    get_settings (world self') = get_settings (world (demo_init [on_time 11])).
Proof.
  apply (exit_restores_settings (λ _, True) (demo_init [on_time 11])).
  eapply rtc_l; [apply (step_tick _ _ 1%Q); by apply Forall_true|].
  eapply rtc_l; [apply (step_tick _ _ 1%Q); by apply Forall_true|].
  apply rtc_refl.
Defined.

Lemma tick_bundle_order_witness :
  callbacks (demo_entered [image_first 11]) =
    zip (OnTick :: map Sensor [7%nat]) (seq 0 (S (length [7%nat]))) ∧
  map sim_item_source [snapshot 11; image 11] = OnTick :: map Sensor [7%nat].
Proof.
  apply (tick_bundle_order sim_item_source (demo_world [image_first 11])
           [7%nat] ∅ (demo_init [image_first 11])
           (demo_entered [image_first 11]) 1%Q [snapshot 11; image 11]
           (tick (demo_entered [image_first 11]) 1%Q).2).
  - apply demo_init_eq.
  - apply rtc_refl.
  - by repeat constructor.
  - vm_compute. reflexivity.
Defined.

(** C7, counterexample: the settings [__enter__] hands to the handle have
    [no_rendering_mode] off, which leaves rendering on. *)
Lemma enter_keeps_rendering :
  ∃ s, CallApplySettings s ∈ calls (demo_entered []) ∧
       no_rendering_mode s = false ∧ no_rendering_mode s ≠ true.
Proof.
  exists (mkWorldSettings false true (1 # 20)%Q). split_and!; [|done..].
  apply list_elem_of_lookup. by exists 1%nat.
Qed.



(** C9, counterexample: after two exits the saved settings were handed to
    the handle twice, the second time by the second exit.  The second exit
    is not idle on the settings either: when the caller has applied other
    settings after the first exit, the second exit replaces them by the
    saved ones. *)
Lemma second_exit_restores_again :
  (__exit__ (demo_entered [])).1 = Ret () ∧
  (__exit__ (__exit__ (demo_entered [])).2).1 = Ret () ∧
  calls (__exit__ (__exit__ (demo_entered [])).2).2 =
    calls (__exit__ (demo_entered [])).2 ++ [CallApplySettings demo_settings] ∧
  restorations (__exit__ (demo_entered [])).2 = 1%nat ∧
  restorations (__exit__ (__exit__ (demo_entered [])).2).2 = 2%nat ∧
  get_settings
    (world (reconfigured (__exit__ (demo_entered [])).2 other_settings)) =
    other_settings ∧
  get_settings
    (world (__exit__ (reconfigured (__exit__ (demo_entered [])).2
                        other_settings)).2) = demo_settings ∧
  demo_settings ≠ other_settings.
Proof. vm_compute. done. Qed.

Lemma exit_twice_witness :
  ∃ s self2,
    _settings (demo_entered []) = Some s ∧
    __exit__ (__exit__ (demo_entered [])).2 = (Ret (), self2) ∧
    calls self2 =
      calls (demo_entered []) ++ [CallApplySettings s; CallApplySettings s] ∧
    get_settings (world (__exit__ (demo_entered [])).2) = s ∧
    get_settings (world self2) = s.
Proof.
  apply (exit_twice (demo_entered []) (__exit__ (demo_entered [])).2).
  reflexivity.
Defined.


(** ** Further properties of the class *)

Section MoreRetrieval.
Context {Item : Type} `{FrameItem Item}.
Implicit Types (q : list Item) (qs : list (list Item)) (f : option Z).



Lemma retrieve_all_Ret_length f qs timeout data qs' :
  retrieve_all f qs timeout = (Ret data, qs') → length data = length qs.
Proof.
  intros Hall%retrieve_all_Ret_inv.
  induction Hall; simpl; [done|]. by f_equal.
Qed.



End MoreRetrieval.

Section MoreTick.
Context {World Item : Type} `{FrameItem Item} `{SimulationHandle World Item}.
Implicit Types (self : @CarlaSyncMode World Item) (timeout : Q).


(** X4: a returned bundle has one item per queue, and [tick] neither adds
    nor removes queues, whatever its outcome. *)
Theorem tick_bundle_length self timeout r self' :
  tick self timeout = (r, self') →
  length (_queues self') = length (_queues self) ∧
  ∀ data, r = Ret data → length data = length (_queues self).
Proof.
  intros Htick.
  destruct (tick_same self timeout) as (_ & _ & _ & _ & _ & _ & Hlen).
  rw Htick /= in Hlen. split; [done|]. intros data ->.
  apply tick_Ret_inv in Htick as [Hall%retrieve_all_Ret_length _].
  by rw Hall stepped_queues deliver_all_length.
Qed.

(** X5: [tick] takes items off the front of the queues only: what is on a
    queue after the call, returned or raised, is a tail of what was on it
    after the step, in the same order. *)
Theorem tick_leaves_tails self timeout :
  Forall2 (λ q' q, q' `suffix_of` q)
    (_queues (tick self timeout).2) (_queues (stepped self)).
Proof. rw tick_state /=. apply retrieve_all_suffixes. Qed.

(** X6: [tick] on an object that was built but never entered has no queue
    to read: it steps the simulation, stores the new frame id and returns
    an empty bundle. *)
Theorem tick_before_enter (w : World) sns kwargs self timeout :
  __init__ w sns kwargs = Ret self →
  ∃ self',
    tick self timeout = (Ret [], self') ∧
    frame self' = Some (world_tick w).1.1 ∧
    world self' = (world_tick w).2 ∧
    calls self' = [CallTick].
Proof.
  intros (Hw & _ & _ & Hq & _ & Hcalls & _)%init_fresh.
  assert (_queues (stepped self) = []) as Hqs.
  { apply length_zero_iff_nil. by rw stepped_queues deliver_all_length Hq. }
  exists (tick self timeout).2.
  destruct (tick_same self timeout) as (_ & _ & _ & _ & -> & -> & _).
  rw tick_frame Hw Hcalls. split_and!; [|done..].
  unfold tick. by rw Hqs.
Qed.

End MoreTick.

Section MoreDelivery.
Context {Item : Type}.
Implicit Types (qs : list (list Item)) (cbs : list (Producer * nat)).

Lemma deliver_grows cbs qs (px : Producer * Item) i q :
  qs !! i = Some q →
  ∃ q', deliver cbs qs px !! i = Some q' ∧ q `prefix_of` q'.
Proof.
  unfold deliver. revert qs q.
  induction cbs as [|[p j] cbs IH]; intros qs q Hq; simpl; [by eauto|].
  case_decide; [|by apply IH]. unfold put.
  destruct (decide (j = i)) as [->|Hne].
  - destruct (IH (alter (λ q, q ++ [px.2]) i qs) (q ++ [px.2]))
      as (q' & Hq' & Hpre); [by rw list_lookup_alter_eq Hq|].
    exists q'. split; [done|]. etrans; [|done]. by apply prefix_app_r.
  - apply IH. by rw list_lookup_alter_ne.
Qed.

Lemma deliver_puts cbs qs (px : Producer * Item) i :
  (px.1, i) ∈ cbs → (i < length qs)%nat →
  ∃ q', deliver cbs qs px !! i = Some q' ∧ px.2 ∈ q'.
Proof.
  unfold deliver. revert qs.
  induction cbs as [|[p j] cbs IH]; intros qs Hin Hi; [by apply elem_of_nil in Hin|].
  simpl. apply elem_of_cons in Hin as [[= <- <-]|Hin].
  - rw decide_True //.
    destruct (lookup_lt_is_Some_2 qs i Hi) as [q Hq].
    destruct (deliver_grows cbs (put i px.2 qs) px i (q ++ [px.2]))
      as (q' & Hq' & Hpre); [by rw /put list_lookup_alter_eq Hq|].
    exists q'. split; [done|].
    destruct Hpre as [k ->]. set_solver.
  - apply IH; [done|]. case_decide; [by rw put_length|done].
Qed.



(** X7: a delivery only appends.  Every queue keeps what it held, in front
    and in order, and no queue is added or removed; each queue registered
    for the delivering producer holds the item afterwards. *)
Theorem deliver_appends cbs qs (px : Producer * Item) :
  length (deliver cbs qs px) = length qs ∧
  (∀ i q, qs !! i = Some q →
     ∃ q', deliver cbs qs px !! i = Some q' ∧ q `prefix_of` q') ∧
  (∀ i, (px.1, i) ∈ cbs → (i < length qs)%nat →
     ∃ q', deliver cbs qs px !! i = Some q' ∧ px.2 ∈ q').
Proof.
  split_and!.
  - apply deliver_length.
  - intros i q. apply deliver_grows.
  - intros i. apply deliver_puts.
Qed.

End MoreDelivery.

Section MoreScope.
Context {World Item : Type} `{FrameItem Item} `{SimulationHandle World Item}.
Implicit Types (self : @CarlaSyncMode World Item) (timeout : Q).


(** What a block leaves alone, whatever is delivered. *)
Lemma block_shape P self self' :
  rtc (block_step P) self self' →
  sensors self' = sensors self ∧ callbacks self' = callbacks self ∧
  _settings self' = _settings self ∧
  delta_seconds self' = delta_seconds self ∧
  length (_queues self') = length (_queues self).
Proof.
  induction 1 as [|self self1 self2 Hstep _ (-> & -> & -> & -> & ->)]; [done|].
  destruct Hstep as [self timeout _|self px _]; simpl.
  - by destruct (tick_same self timeout) as (-> & -> & -> & -> & _ & _ & ->).
  - by rw deliver_length.
Qed.

Lemma block_step_Active `{!HandleLaws World Item} P self self' :
  block_step P self self' → Active self → Active self'.
Proof.
  intros [self1 timeout _|self1 px _]; [apply tick_Active|].
  intros (? & ? & ?). unfold Active. simpl. by rw deliver_length.
Qed.

Lemma block_Active `{!HandleLaws World Item} P self self' :
  rtc (block_step P) self self' → Active self → Active self'.
Proof.
  induction 1 as [|self self1 self2 Hstep _ IH]; [done|].
  intros Hact. by eapply IH, block_step_Active.
Qed.

(** X9: an object built by [__init__] and entered is active, with one queue
    for the tick event and one per sensor, and stays so through the block:
    no call of [tick], returned or raised, and no delivery changes the
    saved settings, the synchronous mode of the handle or the number of
    queues. *)
Theorem block_keeps_active `{!HandleLaws World Item} P (w : World) sns kwargs
    self0 self :
  __init__ w sns kwargs = Ret self0 →
  rtc (block_step P) (__enter__ self0) self →
  Active self ∧
  _settings self = Some (get_settings w) ∧
  length (_queues self) = S (length sns).
Proof.
  intros (Hw & Hsns & _ & Hq & _)%init_fresh Hblock.
  pose proof (enter_Active self0 Hq) as Hact.
  destruct (block_shape _ _ _ Hblock) as (_ & _ & Hset & _ & Hlen).
  destruct (enter_state self0) as (_ & _ & _ & _ & Hsaved & Hqs & _).
  split_and!.
  - by eapply block_Active.
  - by rw Hset Hsaved Hw.
  - by rw Hlen Hqs Hq /= length_replicate Hsns.
Qed.

End MoreScope.

Section MoreEnter.
Context {World Item : Type} `{FrameItem Item} `{SimulationHandle World Item}.
Implicit Types (self : @CarlaSyncMode World Item) (timeout : Q).

(** X10: [__enter__] on an object that is already entered saves the
    synchronous settings over the original ones and adds a second set of
    queues; [__exit__] then leaves the handle in synchronous mode. *)
Theorem enter_twice_loses_settings `{!HandleLaws World Item} self :
  _settings (__enter__ (__enter__ self)) =
    Some (sync_settings (delta_seconds self)) ∧
  length (_queues (__enter__ (__enter__ self))) =
    (length (_queues self) + 2 * S (length (sensors self)))%nat ∧
  ∃ self',
    __exit__ (__enter__ (__enter__ self)) = (Ret (), self') ∧
    get_settings (world self') = sync_settings (delta_seconds self).
Proof.
  destruct (enter_state self) as (Hw1 & Hs1 & _ & Hd1 & _ & Hq1 & _).
  destruct (enter_state (__enter__ self)) as (_ & _ & _ & _ & Hset2 & Hq2 & _).
  assert (_settings (__enter__ (__enter__ self)) =
          Some (sync_settings (delta_seconds self))) as Hsaved.
  { by rw Hset2 Hw1 get_apply_settings. }
  split_and!; [done| |].
  - rw Hq2 Hq1 Hs1 !length_app !length_replicate. lia.
  - unfold __exit__. rw Hsaved.
    pose proof (get_apply_settings (sync_settings (delta_seconds self))
                  (world (__enter__ (__enter__ self)))) as Hw.
    destruct (apply_settings _ (world (__enter__ (__enter__ self)))) as [f w].
    by eexists.
Qed.



End MoreEnter.

(** ** The script's own functions *)

(** X12: [should_quit()] holds exactly when one of the pending events is a
    [QUIT] event or the release of the escape key; other events, and other
    keys, never end the loop. *)
Theorem should_quit_iff (events : list Event) :
  should_quit events = true ↔
  ∃ e, e ∈ events ∧ (e = QUIT ∨ e = KEYUP K_ESCAPE).
Proof.
  induction events as [|[|key|ty] events IH]; simpl.
  - split; [done|]. by intros (e & ?%elem_of_nil & _).
  - split; [|done]. intros _. exists QUIT. split; [left|by left].
  - case_decide as Hk.
    + split; [|done]. intros _. exists (KEYUP K_ESCAPE). subst.
      split; [left|by right].
    + rw IH. split.
      * intros (e & He & Hq). exists e. split; [by right|done].
      * intros (e & [->|He]%elem_of_cons & Hq); [|by eauto].
        destruct Hq as [?|[= ?]]; done.
  - rw IH. split.
    + intros (e & He & Hq). exists e. split; [by right|done].
    + intros (e & [->|He]%elem_of_cons & Hq); [|by eauto].
      by destruct Hq.
Qed.

(** X13: [get_font()] picks a font that is installed: [ubuntumono] when it
    is among the fonts, the first font otherwise; it fails, with
    [IndexError], exactly when there is no font at all. *)
Theorem get_font_installed (fonts : list string) :
  (get_font fonts = Err IndexError ↔ fonts = []) ∧
  (∀ e, get_font fonts = Err e → e = IndexError) ∧
  (∀ font, get_font fonts = Ok font →
     font ∈ fonts ∧
     (default_font ∈ fonts → font = default_font) ∧
     (default_font ∉ fonts → head fonts = Some font)).
Proof.
  unfold get_font. case_decide as Hd.
  - split_and!; [|done|].
    + split; [done|]. intros ->. by apply elem_of_nil in Hd.
    + intros font [= <-]. by split_and!.
  - destruct fonts as [|font0 fonts].
    + split_and!; [done| |done]. by intros e [= <-].
    + split_and!; [done|done|]. intros font [= <-].
      split_and!; [left|done|done].
Qed.

Lemma lookup_map {A B : Type} (f : A → B) (l : list A) (i : nat) :
  map f l !! i = f <$> l !! i.
Proof. revert i. induction l as [|a l IH]; intros [|i]; simpl; by try apply IH. Qed.

Section DrawImage.
Context {A : Type}.
Implicit Types (l : list A).

Lemma reshape_length (k n : nat) l : length (reshape k n l) = k.
Proof. revert l. induction k as [|k IH]; intros l; simpl; [done|]. by rw IH. Qed.

Lemma reshape_lookup (k n : nat) l (i : nat) :
  (i < k)%nat → reshape k n l !! i = Some (take n (drop (i * n) l)).
Proof.
  revert l i. induction k as [|k IH]; intros l i Hi; [lia|].
  destruct i as [|i]; simpl; [done|].
  rw IH; [|lia]. by rw drop_drop.
Qed.

Lemma swapaxes_lookup (w : nat) (m : list (list (list A))) (x y : nat) row :
  (x < w)%nat → m !! y = Some row →
  ∃ col, swapaxes w m !! x = Some col ∧ col !! y = Some (default [] (row !! x)).
Proof.
  intros Hx Hy. eexists. split.
  - unfold swapaxes. rw lookup_map.
    by rw (proj2 (lookup_seq 0 w x x) (conj eq_refl Hx)).
  - by rw lookup_map Hy.
Qed.

Lemma swapaxes_length (w : nat) (m : list (list (list A))) :
  length (swapaxes w m) = w.
Proof. unfold swapaxes. by rw length_map length_seq. Qed.

End DrawImage.

(** The array of [draw_image], pixel by pixel. *)
Lemma draw_image_array_pixels (raw_data : list Byte.byte) (height width : nat) :
  (length raw_data ≠ (height * width * 4)%nat →
   draw_image_array raw_data height width = Err ValueError) ∧
  (length raw_data = (height * width * 4)%nat →
   ∃ array,
     draw_image_array raw_data height width = Ok array ∧
     length array = width ∧
     ∀ x y, (x < width)%nat → (y < height)%nat →
       ∃ b g r a col,
         raw_data !! ((y * width + x) * 4)%nat = Some b ∧
         raw_data !! ((y * width + x) * 4 + 1)%nat = Some g ∧
         raw_data !! ((y * width + x) * 4 + 2)%nat = Some r ∧
         raw_data !! ((y * width + x) * 4 + 3)%nat = Some a ∧
         array !! x = Some col ∧ length col = height ∧
         col !! y = Some [r; g; b]).
Proof.
  unfold draw_image_array. split; intros Hlen; [by rw decide_False|].
  rw decide_True //. eexists. split; [done|]. split; [apply swapaxes_length|].
  intros x y Hx Hy.
  set (o := ((y * width + x) * 4)%nat).
  assert (o + 4 ≤ length raw_data)%nat as Ho by (unfold o; nia).
  destruct (drop o raw_data) as [|b [|g [|r [|a rest]]]] eqn:Hd;
    try (apply (f_equal length) in Hd; rw length_drop /= in Hd; lia).
  assert (∀ k, raw_data !! (o + k)%nat = (b :: g :: r :: a :: rest) !! k) as Hk.
  { intros k. by rw -Hd lookup_drop. }
  exists b, g, r, a.
  set (P := reshape (height * width) 4 raw_data).
  set (M := map (map reverse) (map (map (take 3)) (reshape height width P))).
  assert (M !! y = Some (map reverse (map (take 3)
                           (take width (drop (y * width) P))))) as HM.
  { unfold M. by rw !lookup_map reshape_lookup. }
  destruct (swapaxes_lookup width M x y _ Hx HM) as (col & Hcol & Hpix).
  exists col. split_and!.
  - by rw -(Nat.add_0_r o) Hk.
  - by rw Hk.
  - by rw Hk.
  - by rw Hk.
  - done.
  - unfold swapaxes in Hcol. rw lookup_map in Hcol.
    destruct (seq 0 width !! x); [|done]. injection Hcol as <-.
    by rw /M !length_map reshape_length.
  - rw Hpix. simpl. rw !lookup_map.
    rw lookup_take_lt // lookup_drop reshape_lookup; [|nia].
    fold o. by rw Hd.
Qed.

(** X14: for a buffer of [height * width * 4] bytes [draw_image] builds a
    surface of [width] columns of [height] pixels; the pixel at column [x]
    and row [y] holds bytes 2, 1 and 0, in that order, of the four bytes of
    pixel [y * width + x] of the buffer, and the fourth byte is dropped.
    The surface gets alpha 100 when [blend] is set and none otherwise.  For
    a buffer of any other size [draw_image] raises [ValueError]. *)
Theorem draw_image_pixels (raw_data : list Byte.byte) (height width : nat)
    (blend : bool) :
  (length raw_data ≠ (height * width * 4)%nat →
   draw_image raw_data height width blend = Err ValueError) ∧
  (length raw_data = (height * width * 4)%nat →
   ∃ surface,
     draw_image raw_data height width blend = Ok surface ∧
     surface_alpha surface = (if blend then Some 100 else None) ∧
     length (surface_pixels surface) = width ∧
     ∀ x y, (x < width)%nat → (y < height)%nat →
       ∃ b g r a col,
         raw_data !! ((y * width + x) * 4)%nat = Some b ∧
         raw_data !! ((y * width + x) * 4 + 1)%nat = Some g ∧
         raw_data !! ((y * width + x) * 4 + 2)%nat = Some r ∧
         raw_data !! ((y * width + x) * 4 + 3)%nat = Some a ∧
         surface_pixels surface !! x = Some col ∧ length col = height ∧
         col !! y = Some [r; g; b]).
Proof.
  destruct (draw_image_array_pixels raw_data height width) as [Hbad Hgood].
  unfold draw_image. split; intros Hlen.
  - by rw (Hbad Hlen).
  - destruct (Hgood Hlen) as (array & -> & Hw & Hpix).
    eexists. by split_and!.
Qed.

(** ** The loop of [main] *)

Section MoreMain.
Context {World Item : Type} `{FrameItem Item} `{SimulationHandle World Item}.
Implicit Types (self : @CarlaSyncMode World Item).




End MoreMain.

(** ** The further properties on concrete runs *)

Lemma tick_bundle_length_witness :
  length (_queues (tick (demo_entered [on_time 11]) 1%Q).2) =
    length (_queues (demo_entered [on_time 11])) ∧
  ∀ data, (tick (demo_entered [on_time 11]) 1%Q).1 = Ret data →
          length data = length (_queues (demo_entered [on_time 11])).
Proof.
  apply (tick_bundle_length (demo_entered [on_time 11]) 1%Q).
  vm_compute. reflexivity.
Defined.

Lemma tick_before_enter_witness :
  ∃ self',
    tick (demo_init [on_time 11]) 1%Q = (Ret [], self') ∧
    frame self' = Some (world_tick (demo_world [on_time 11])).1.1 ∧
    world self' = (world_tick (demo_world [on_time 11])).2 ∧
    calls self' = [CallTick].
Proof.
  apply (tick_before_enter (demo_world [on_time 11]) [7%nat] ∅).
  apply demo_init_eq.
Defined.

Lemma block_keeps_active_witness :
  Active (tick (demo_entered [snapshot_only 11]) 1%Q).2 ∧
  _settings (tick (demo_entered [snapshot_only 11]) 1%Q).2 =
    Some (get_settings (demo_world [snapshot_only 11])) ∧
  length (_queues (tick (demo_entered [snapshot_only 11]) 1%Q).2) =
    S (length [7%nat]).
Proof.
  apply (block_keeps_active (λ _, True) (demo_world [snapshot_only 11])
           [7%nat] ∅ (demo_init [snapshot_only 11])).
  - apply demo_init_eq.
  - apply rtc_once, (step_tick _ (demo_entered [snapshot_only 11]) 1%Q).
    by apply Forall_true.
Defined.

Lemma enter_twice_loses_settings_witness :
  _settings (__enter__ (__enter__ (demo_init []))) =
    Some (sync_settings (delta_seconds (demo_init []))) ∧
  length (_queues (__enter__ (__enter__ (demo_init [])))) =
    (length (_queues (demo_init [])) + 2 * S (length (sensors (demo_init []))))%nat ∧
  ∃ self',
    __exit__ (__enter__ (__enter__ (demo_init []))) = (Ret (), self') ∧
    get_settings (world self') = sync_settings (delta_seconds (demo_init [])).
Proof. apply (enter_twice_loses_settings (demo_init [])). Defined.


Lemma draw_image_pixels_witness :
  ∃ surface,
    draw_image [Byte.x01; Byte.x02; Byte.x03; Byte.xff;
                Byte.x11; Byte.x12; Byte.x13; Byte.xff] 1 2 true = Ok surface ∧
    surface_alpha surface = Some 100 ∧
    surface_pixels surface =
      [[[Byte.x03; Byte.x02; Byte.x01]]; [[Byte.x13; Byte.x12; Byte.x11]]].
Proof.
  destruct (proj2 (draw_image_pixels
                     [Byte.x01; Byte.x02; Byte.x03; Byte.xff;
                      Byte.x11; Byte.x12; Byte.x13; Byte.xff] 1 2 true)
              eq_refl) as (surface & Hdraw & Halpha & _).
  exists surface. split_and!; [done..|].
  vm_compute in Hdraw. by injection Hdraw as <-.
Defined.

